(** * The mock tools of 07_Agents/00_LLM_Claude_Agent_Tools.ipynb

    A shallow embedding of the notebook's own Python code: the three EC2
    lambdas, [record_change], [customer_table] and [customer_lookup], and
    the sequence of framework calls the cells make.  Python values are a
    small inductive type, exceptions are an error result, [print] is a
    write to an explicit output log, and the global [customer_table] lives
    in an explicit state. *)

From Stdlib Require Import ZArith List String Ascii Bool Lia DecimalString.
From Stdlib Require DecimalPos DecimalZ.
Import ListNotations.
Local Open Scope string_scope.
Local Open Scope Z_scope.

(** ** Python values *)

(** The values the tools can meet: a tool argument is a [str] in practice,
    [json.loads] adds lists and dicts, and the table holds ints.  A [str]
    is a [string]; a character stands for one code point.  A dict keeps its
    insertion order and all keys in this notebook are strings.  Floats are
    outside the embedding. *)
#[warnings="-register-all"]
Inductive pyval : Type :=
| VNone
| VBool (b : bool)
| VInt (z : Z)
| VStr (s : string)
| VList (l : list pyval)
| VDict (d : list (string * pyval)).

Inductive exn : Type :=
| TypeError
| ValueError
| KeyError
| AttributeError
| JSONDecodeError.

Inductive result (A : Type) : Type :=
| Ok (a : A)
| Raise (e : exn).
Arguments Ok {A} a.
Arguments Raise {A} e.

Definition raises {A} (r : result A) : Prop := exists e, r = Raise e.

(** ** Builtins and library functions

    [int] on a [str], [json.loads] and the [repr] of containers are
    Python's, not the notebook's; the tools are written against this
    interface and every statement below holds for any implementation
    of it. *)
Class Builtins : Type := {
  (** [int(s)] for a str [s]; [None] stands for [ValueError]. *)
  int_of_str : string -> option Z;
  (** [json.loads(s)] for a str [s]; [None] stands for [JSONDecodeError]. *)
  json_loads : string -> option pyval;
  (** [repr(v)] of a list or a dict. *)
  repr : pyval -> string
}.

(** ** Strings *)

(** [str(n)] for an int. *)
Definition str_of_int (z : Z) : string := NilZero.string_of_int (Z.to_int z).

(** [s.split(sep)] for a one-character separator. *)
Fixpoint split (sep : ascii) (s : string) : list string :=
  match s with
  | EmptyString => [EmptyString]
  | String c rest =>
      if Ascii.eqb c sep then EmptyString :: split sep rest
      else match split sep rest with
           | seg :: segs => String c seg :: segs
           | [] => [String c EmptyString]
           end
  end.

(** Number of occurrences of a character. *)
Fixpoint count_char (sep : ascii) (s : string) : nat :=
  match s with
  | EmptyString => O
  | String c rest => (if Ascii.eqb c sep then 1 else 0) + count_char sep rest
  end%nat.

(** A slice bound [i] of a sequence of length [len], as Python adjusts it:
    a negative bound counts from the end, and both are clamped. *)
Definition slice_index (len i : Z) : Z :=
  if i <? 0 then Z.max 0 (len + i) else Z.min len i.

(** [s[i:j]] on a str. *)
Definition str_slice (s : string) (i j : Z) : string :=
  let len := Z.of_nat (String.length s) in
  let lo := slice_index len i in
  let hi := slice_index len j in
  substring (Z.to_nat lo) (Z.to_nat (hi - lo)) s.

(** [l[i:j]] on a list. *)
Definition list_slice {A} (l : list A) (i j : Z) : list A :=
  let len := Z.of_nat (List.length l) in
  let lo := slice_index len i in
  let hi := slice_index len j in
  firstn (Z.to_nat (hi - lo)) (skipn (Z.to_nat lo) l).

(** The string without its first character, and without its last. *)
Definition drop_first (s : string) : string :=
  match s with
  | EmptyString => EmptyString
  | String _ rest => rest
  end.

Fixpoint drop_last (s : string) : string :=
  match s with
  | EmptyString => EmptyString
  | String c rest =>
      match rest with
      | EmptyString => EmptyString
      | String _ _ => String c (drop_last rest)
      end
  end.

(** ** Operations on values *)

(** [d[k]] on the entries of a dict. *)
Fixpoint dict_get (d : list (string * pyval)) (k : string) : option pyval :=
  match d with
  | [] => None
  | (k', v) :: rest => if String.eqb k' k then Some v else dict_get rest k
  end.

(** [v[k]] for a str key [k]. *)
Definition subscript (v : pyval) (k : string) : result pyval :=
  match v with
  | VDict d =>
      match dict_get d k with
      | Some w => Ok w
      | None => Raise KeyError
      end
  | _ => Raise TypeError
  end.

(** [v[i:j]]. *)
Definition slice (v : pyval) (i j : Z) : result pyval :=
  match v with
  | VStr s => Ok (VStr (str_slice s i j))
  | VList l => Ok (VList (list_slice l i j))
  | _ => Raise TypeError
  end.

(** [v.split(',')]: only a str has the method. *)
Definition split_comma (v : pyval) : result (list string) :=
  match v with
  | VStr s => Ok (split "," s)
  | _ => Raise AttributeError
  end.

(** [a == b] for an int [b]. *)
Definition eq_int (a : pyval) (b : Z) : bool :=
  match a with
  | VInt z => z =? b
  | VBool t => Z.b2z t =? b
  | _ => false
  end.

Section WithBuiltins.
Context {B : Builtins}.

(** [int(v)]. *)
Definition py_int (v : pyval) : result Z :=
  match v with
  | VInt z => Ok z
  | VBool b => Ok (Z.b2z b)
  | VStr s =>
      match int_of_str s with
      | Some z => Ok z
      | None => Raise ValueError
      end
  | _ => Raise TypeError
  end.

(** [json.loads(v)]. *)
Definition py_json_loads (v : pyval) : result pyval :=
  match v with
  | VStr s =>
      match json_loads s with
      | Some w => Ok w
      | None => Raise JSONDecodeError
      end
  | _ => Raise TypeError
  end.

(** [str(v)], which is what a replacement field [{v}] of an f-string
    inserts. *)
Definition py_str (v : pyval) : string :=
  match v with
  | VNone => "None"
  | VBool true => "True"
  | VBool false => "False"
  | VInt z => str_of_int z
  | VStr s => s
  | VList _ | VDict _ => repr v
  end.

End WithBuiltins.

(** ** The EC2 tools (cell 10) *)

(** [lambda x: f"['i-00000000000','i-00000000001','i-00000000002']"] *)
Definition EC2Search (x : pyval) : result pyval :=
  Ok (VStr "['i-00000000000','i-00000000001','i-00000000002']").

(** [lambda x: f"{len(x.split(','))} instances patched"] *)
Definition EC2Patch (x : pyval) : result pyval :=
  match split_comma x with
  | Ok segs =>
      Ok (VStr (str_of_int (Z.of_nat (List.length segs)) ++ " instances patched"))
  | Raise e => Raise e
  end.

(** [lambda x: f"{len(x.split(','))} instances stopped"] *)
Definition EC2Stop (x : pyval) : result pyval :=
  match split_comma x with
  | Ok segs =>
      Ok (VStr (str_of_int (Z.of_nat (List.length segs)) ++ " instances stopped"))
  | Raise e => Raise e
  end.

(** ** State and effects

    The tools that [print] and read the global table run in a state: the
    list bound to the global [customer_table] and the lines written to
    standard output, oldest first.  An exception ends the computation and
    keeps the state reached so far; nothing in the notebook catches one, so
    there is no handler. *)
Record state : Type := mkState {
  g_customer_table : list pyval;
  stdout : list string
}.

(** A computation over a state of type [S]. *)
Definition M (S A : Type) : Type := S -> result A * S.

Definition ret {S A} (a : A) : M S A := fun st => (Ok a, st).

Definition bind {S A C} (m : M S A) (k : A -> M S C) : M S C :=
  fun st =>
    match m st with
    | (Ok a, st') => k a st'
    | (Raise e, st') => (Raise e, st')
    end.

Definition lift {S A} (r : result A) : M S A := fun st => (r, st).

Notation "x <- m ;; k" := (bind m (fun x => k))
  (at level 61, m at next level, right associativity).
Notation "m ;; k" := (bind m (fun _ => k))
  (at level 61, right associativity).

(** [print(line)]. *)
Definition print (line : string) : M state unit :=
  fun st => (Ok tt, mkState (g_customer_table st) (stdout st ++ [line])).

(** Reading the global [customer_table]. *)
Definition read_customer_table : M state (list pyval) :=
  fun st => (Ok (g_customer_table st), st).

Section Tools.
Context {B : Builtins}.

(** ** ChangeRecord (cell 10)
<<
def record_change(x):
    print(f"*{x}*")
    j = json.loads(x[1:-1])
    return f"instance {j['instance']}. ACTION: {j['changeType']} recorded in CMDB"
>> *)
Definition record_change (x : pyval) : M state pyval :=
  print ("*" ++ py_str x ++ "*") ;;
  inner <- lift (slice x 1 (-1)) ;;
  j <- lift (py_json_loads inner) ;;
  instance <- lift (subscript j "instance") ;;
  changeType <- lift (subscript j "changeType") ;;
  ret (VStr ("instance " ++ py_str instance ++ ". ACTION: "
             ++ py_str changeType ++ " recorded in CMDB")).

(** ** CustomerLookup (cell 19) *)

(** The loop of [customer_lookup] over the remaining customers:
<<
    for customer in customer_table:
        if customer["id"] == int(id):
            print(f"found customer {id} {customer}")
            return customer
    return None
>>
    [customer["id"]] is evaluated before [int(id)], and both once per
    customer visited.  The value returned is the element of the table
    itself; nothing in the notebook writes to it afterwards. *)
Fixpoint customer_loop (customers : list pyval) (id : pyval)
  : M state pyval :=
  match customers with
  | [] => ret VNone
  | customer :: rest =>
      k <- lift (subscript customer "id") ;;
      n <- lift (py_int id) ;;
      if eq_int k n then
        print ("found customer " ++ py_str id ++ " " ++ py_str customer) ;;
        ret customer
      else customer_loop rest id
  end.

(**
<<
def customer_lookup(id):
    print(f"search by customer {id}")
    for customer in customer_table:
        ...
    return None
>> *)
Definition customer_lookup (id : pyval) : M state pyval :=
  print ("search by customer " ++ py_str id) ;;
  customers <- read_customer_table ;;
  customer_loop customers id.

(** The five custom tools by the name they are registered under, each with
    the function given as [func]. *)
Definition custom_tools : list (string * (pyval -> M state pyval)) :=
  [ ("EC2Search", fun x => lift (EC2Search x));
    ("EC2Patch", fun x => lift (EC2Patch x));
    ("EC2Stop", fun x => lift (EC2Stop x));
    ("ChangeRecord", record_change);
    ("CustomerLookup", customer_lookup) ].

End Tools.

(** The list literal bound to [customer_table] (cell 19). *)
Definition customer (id : Z) (first_name last_name : string) (age : Z)
    (postal_code : string) : pyval :=
  VDict [("id", VInt id); ("first_name", VStr first_name);
         ("last_name", VStr last_name); ("age", VInt age);
         ("postal_code", VStr postal_code)].

Definition order (order_id : Z) (description : string) : pyval :=
  VDict [("order_id", VInt order_id); ("description", VStr description)].

Definition michelle : pyval :=
  VDict [("id", VInt 8); ("first_name", VStr "Michelle");
         ("last_name", VStr "Chen"); ("age", VInt 22);
         ("orders", VList [order 1 "An order of 1 dozen pencils";
                           order 2 "An order of 2 markers"]);
         ("postal_code", VStr "33215")].

Definition customer_table : list pyval :=
  [ customer 1 "John" "Doe" 35 "90210";
    customer 2 "Jane" "Smith" 27 "12345";
    customer 3 "Bob" "Jones" 42 "55555";
    customer 4 "Sara" "Miller" 29 "13579";
    customer 5 "Mark" "Davis" 31 "02468";
    customer 6 "Laura" "Wilson" 24 "98765";
    customer 7 "Steve" "Moore" 36 "11223";
    michelle;
    customer 9 "David" "Lee" 29 "99567";
    customer 10 "Jessica" "Brown" 18 "43210" ].

(** The state once cell 19 has run. *)
Definition initial_state : state := mkState customer_table [].

(** ** The cells as a script

    From cell 7 on the notebook is a straight line of calls into the
    framework.  The calls are opaque: each is recorded, in order, with the
    arguments the script passes, and returns a handle that stands for the
    object the framework builds.  The trace is what running the cells top
    to bottom performs when no call raises.  The script rebinds [tools]
    where the notebook appends to the list or assigns [tool.func]; an
    agent is recorded with the tools as they are when it is constructed,
    and each agent is run before the script changes them again. *)
Module Notebook.

(** The callables given to tools as [func]. *)
Inductive func : Type :=
| EC2Search_lambda
| EC2Patch_lambda
| EC2Stop_lambda
| record_change_def
| customer_lookup_def
| list_tagged_instances
| search_run
| llm_math_chain_run.

Inductive tool : Type :=
| Loaded (key : string)
| Tool (name : string) (f : func) (description : string).

Inductive agent : Type :=
| ZeroShotReact (tools : list tool) (llm : string)
| PlanExecute (tools : list tool) (plan_llm execute_llm : string).


Inductive call : Type :=
| CBedrock (model_id : string)
| CLoadTools (keys : list string)
| CTool (t : tool)
| CAgent (a : agent)
| CRun (a : agent) (prompt : string)
| CPrintResult
| COther (what : string).

Definition Script (A : Type) : Type := M (list call) A.

Definition record (c : call) : Script unit :=
  fun trace => (Ok tt, (trace ++ [c])%list).

(** [Bedrock(model_id=..., client=boto3_bedrock, model_kwargs=model_parameter)] *)
Definition Bedrock (model_id : string) : Script string :=
  record (CBedrock model_id) ;; ret model_id.

(** [load_tools([...], llm=llm)] *)
Definition load_tools (keys : list string) : Script (list tool) :=
  record (CLoadTools keys) ;; ret (map Loaded keys).

(** [initialize_agent(tools, llm, agent=AgentType.ZERO_SHOT_REACT_DESCRIPTION, verbose=True)] *)
Definition initialize_agent (tools : list tool) (llm : string) : Script agent :=
  record (CAgent (ZeroShotReact tools llm)) ;; ret (ZeroShotReact tools llm).

(** [load_chat_planner(plan_llm)], [load_agent_executor(execute_llm, tools)]
    and [PlanAndExecute(planner=planner, executor=executor, ...)] *)
Definition PlanAndExecute (tools : list tool) (plan_llm execute_llm : string)
  : Script agent :=
  record (COther "load_chat_planner") ;;
  record (COther "load_agent_executor") ;;
  record (CAgent (PlanExecute tools plan_llm execute_llm)) ;;
  ret (PlanExecute tools plan_llm execute_llm).

(** [agent.run(prompt)] *)
Definition run (a : agent) (prompt : string) : Script unit :=
  record (CRun a prompt).

(** [print(f"{result}")] *)
Definition print_result : Script unit := record CPrintResult.

(** [Tool.from_function(name=..., func=..., description=...)] and
    [Tool(name=..., func=..., description=...)] *)
Definition Tool_from_function (name : string) (f : func) (description : string)
  : Script tool :=
  record (CTool (Tool name f description)) ;; ret (Tool name f description).

(** [tools.append(t)] *)
Definition append (tools : list tool) (t : tool) : list tool :=
  (tools ++ [t])%list.

(** [for tool in tools: if tool.name == name: tool.func = f].  The tools of
    [load_tools] are the framework's and carry other names. *)
Definition set_func (name : string) (f : func) (tools : list tool) : list tool :=
  map (fun t =>
         match t with
         | Tool n g d => if String.eqb n name then Tool n f d else Tool n g d
         | Loaded key => Loaded key
         end) tools.

Definition question_sagemaker : string :=
  "Human: Only answer the question asked. <question> What is Amazon SageMaker? What is its launch year multiplied by 2? </question> Assistant: Launch year multiplied by 2:".

Definition newline : string := String "010" EmptyString.

Definition question_tag (tag : string) : string :=
  "Human: Please list my EC2 instances with the a tag " ++ tag ++ ". " ++ newline
  ++ "Next, patch each of the instances and record the patch change record in the CMDB with a change type of 'PATCH'. " ++ newline
  ++ "Finally, for each of the instances stop the instance and tell me how many were stopped. Assistant:".

Definition question_customer : string :=
  "Human: write one sentence summary about the information you know about the customer with an id of 8."
  ++ newline ++ newline ++ "Assistant:".

Definition question_pae : string :=
  "What is Amazon SageMaker? What is its launch year multiplied by 2? Launch year multiplied by 2 is".

Definition notebook : Script unit :=
  (* cell 7 *)
  llm <- Bedrock "anthropic.claude-instant-v1" ;;
  tools <- load_tools ["serpapi"; "llm-math"] ;;
  react_agent <- initialize_agent tools llm ;;
  let question := question_sagemaker in
  (* cell 8 *)
  run react_agent question ;;
  (* cell 10 *)
  record (COther "SerpAPIWrapper") ;;
  record (COther "LLMMathChain.from_llm") ;;
  tools <- load_tools ["serpapi"; "llm-math"] ;;
  t <- Tool_from_function "EC2Search" EC2Search_lambda
    "Use this when you need to list EC2 instances in json. It takes a single parameter named tagname" ;;
  let tools := append tools t in
  t <- Tool_from_function "EC2Patch" EC2Patch_lambda
    "Use this when you need to patch EC2 instances" ;;
  let tools := append tools t in
  t <- Tool_from_function "EC2Stop" EC2Stop_lambda
    "Use this when you need to stop EC2 instances" ;;
  let tools := append tools t in
  t <- Tool_from_function "ChangeRecord" record_change_def
    "Use this when you need to update a change record in CMDB. This takes in a json document as the parameter. The element named 'instance' contains the instance and the element named 'changeType' is the change type." ;;
  let tools := append tools t in
  (* cell 11 *)
  llm <- Bedrock "anthropic.claude-instant-v1" ;;
  react_agent <- initialize_agent tools llm ;;
  let question := question_tag "delete" in
  run react_agent question ;;
  print_result ;;
  (* cell 13 *)
  record (COther "boto3_bedrock.invoke_model") ;;
  record (COther "exec") ;;
  (* cell 15 *)
  let tools := set_func "EC2Search" list_tagged_instances tools in
  llm <- Bedrock "anthropic.claude-instant-v1" ;;
  react_agent <- initialize_agent tools llm ;;
  let question := question_tag "delete" in
  run react_agent question ;;
  print_result ;;
  (* cell 17 *)
  let question := question_tag "doesnotexist" in
  run react_agent question ;;
  print_result ;;
  (* cell 19 *)
  t <- Tool_from_function "CustomerLookup" customer_lookup_def
    "Use this when you need to lookup a customer by id." ;;
  let tools := append tools t in
  (* cell 20 *)
  react_agent <- initialize_agent tools llm ;;
  let question := question_customer in
  run react_agent question ;;
  print_result ;;
  (* cell 22 *)
  plan_llm <- Bedrock "anthropic.claude-v1" ;;
  execute_llm <- Bedrock "anthropic.claude-instant-v1" ;;
  (* cell 23 *)
  record (COther "SerpAPIWrapper") ;;
  record (COther "LLMMathChain.from_llm") ;;
  t1 <- Tool_from_function "Search" search_run
    "useful for when you need to answer questions about current events. You should ask targeted questions" ;;
  t2 <- Tool_from_function "Calculator" llm_math_chain_run
    "useful for when you need to answer questions about math" ;;
  let tools := [t1; t2] in
  (* cell 24 *)
  pae_agent <- PlanAndExecute tools plan_llm execute_llm ;;
  (* cell 25 *)
  run pae_agent question_pae.

(** The calls of a run of the notebook. *)
Definition trace : list call := snd (notebook []).

Definition is_model_client (c : call) : bool :=
  match c with CBedrock _ => true | _ => false end.

Definition is_agent_constructor (c : call) : bool :=
  match c with CAgent _ => true | _ => false end.

Definition is_run (c : call) : bool :=
  match c with CRun _ _ => true | _ => false end.

Definition is_print (c : call) : bool :=
  match c with CPrintResult => true | _ => false end.

Definition count (p : call -> bool) (tr : list call) : nat :=
  List.length (filter p tr).





(** *** The pattern: model client, tool list, agent, invocation, print *)







End Notebook.

(** ** A reference implementation of the builtins

    Enough of Python's [int], [json.loads] and [repr] to run the tools on
    concrete inputs: decimal literals with surrounding whitespace, a sign
    and underscores between digits; JSON without fractions, exponents and
    [\u] escapes; [repr] with the usual quoting. *)
Module Reference.

Definition dquote : ascii := "034"%char.
Definition backslash : ascii := "092"%char.

Definition code (c : ascii) : Z := Z.of_N (N_of_ascii c).

Definition is_digit (c : ascii) : bool := (48 <=? code c) && (code c <=? 57).

Definition digit_value (c : ascii) : Z := code c - 48.

(** Whitespace [int] skips around the digits, among the code points
    below 256. *)
Definition is_space (c : ascii) : bool :=
  let n := code c in
  ((9 <=? n) && (n <=? 13)) || (n =? 32) || (n =? 133) || (n =? 160).

Fixpoint lstrip (s : string) : string :=
  match s with
  | EmptyString => EmptyString
  | String c rest => if is_space c then lstrip rest else s
  end.

Definition reverse (s : string) : string :=
  string_of_list_ascii (rev (list_ascii_of_string s)).

Definition strip (s : string) : string :=
  reverse (lstrip (reverse (lstrip s))).

(** Digits with single underscores between them. *)
Fixpoint scan_int (s : string) (acc : Z) (after_digit : bool) : option Z :=
  match s with
  | EmptyString => if after_digit then Some acc else None
  | String c rest =>
      if is_digit c then scan_int rest (10 * acc + digit_value c) true
      else if Ascii.eqb c "_" then
        if after_digit then scan_int rest acc false else None
      else None
  end.

Definition int_of_str (s : string) : option Z :=
  match strip s with
  | EmptyString => None
  | String c rest =>
      if Ascii.eqb c "-" then option_map Z.opp (scan_int rest 0 false)
      else if Ascii.eqb c "+" then scan_int rest 0 false
      else scan_int (String c rest) 0 false
  end.

(** *** JSON *)

Definition is_json_ws (c : ascii) : bool :=
  let n := code c in (n =? 32) || (n =? 9) || (n =? 10) || (n =? 13).

Fixpoint skip_ws (s : string) : string :=
  match s with
  | EmptyString => EmptyString
  | String c rest => if is_json_ws c then skip_ws rest else s
  end.

(** The character an escape [\e] stands for. *)
Definition unescape (e : ascii) : option ascii :=
  if Ascii.eqb e dquote then Some dquote
  else if Ascii.eqb e backslash then Some backslash
  else if Ascii.eqb e "/" then Some "/"%char
  else if Ascii.eqb e "b" then Some "008"%char
  else if Ascii.eqb e "f" then Some "012"%char
  else if Ascii.eqb e "n" then Some "010"%char
  else if Ascii.eqb e "r" then Some "013"%char
  else if Ascii.eqb e "t" then Some "009"%char
  else None.

(** The body of a JSON string, read after its opening quote, and what
    follows its closing quote. *)
Fixpoint scan_string (s : string) : option (string * string) :=
  match s with
  | EmptyString => None
  | String c rest =>
      if Ascii.eqb c dquote then Some (EmptyString, rest)
      else if Ascii.eqb c backslash then
        match rest with
        | EmptyString => None
        | String e rest' =>
            match unescape e, scan_string rest' with
            | Some ch, Some (body, after) => Some (String ch body, after)
            | _, _ => None
            end
        end
      else if code c <? 32 then None
      else
        match scan_string rest with
        | Some (body, after) => Some (String c body, after)
        | None => None
        end
  end.

Fixpoint scan_digits (s : string) (acc : Z) : Z * string :=
  match s with
  | EmptyString => (acc, EmptyString)
  | String c rest =>
      if is_digit c then scan_digits rest (10 * acc + digit_value c)
      else (acc, s)
  end.

(** A number is accepted when it is an integer: [0] or a digit string
    without a leading zero, not followed by a fraction or an exponent. *)
Definition scan_natural (s : string) : option (Z * string) :=
  match s with
  | EmptyString => None
  | String c rest =>
      if negb (is_digit c) then None
      else
        let '(n, after) :=
          if Ascii.eqb c "0" then (0, rest) else scan_digits s 0 in
        match after with
        | String d _ =>
            if Ascii.eqb d "." || Ascii.eqb d "e" || Ascii.eqb d "E"
            then None else Some (n, after)
        | EmptyString => Some (n, after)
        end
  end.

Definition strip_prefix (p s : string) : option string :=
  if prefix p s
  then Some (substring (String.length p) (String.length s - String.length p) s)
  else None.

(** A key set again keeps its place and takes the new value. *)
Fixpoint dict_set (d : list (string * pyval)) (k : string) (v : pyval)
  : list (string * pyval) :=
  match d with
  | [] => [(k, v)]
  | (k', w) :: rest =>
      if String.eqb k' k then (k', v) :: rest else (k', w) :: dict_set rest k v
  end.

Definition scan_scalar (s : string) : option (pyval * string) :=
  match strip_prefix "true" s, strip_prefix "false" s, strip_prefix "null" s with
  | Some after, _, _ => Some (VBool true, after)
  | _, Some after, _ => Some (VBool false, after)
  | _, _, Some after => Some (VNone, after)
  | _, _, _ =>
      match s with
      | String c rest =>
          if Ascii.eqb c "-" then
            match scan_natural rest with
            | Some (n, after) => Some (VInt (- n), after)
            | None => None
            end
          else
            match scan_natural s with
            | Some (n, after) => Some (VInt n, after)
            | None => None
            end
      | EmptyString => None
      end
  end.

Fixpoint parse_value (fuel : nat) (s : string) : option (pyval * string) :=
  match fuel with
  | O => None
  | S fuel' =>
      match skip_ws s with
      | EmptyString => None
      | String c rest =>
          if Ascii.eqb c "{" then
            match skip_ws rest with
            | String c' rest' =>
                if Ascii.eqb c' "}" then Some (VDict [], rest')
                else parse_members fuel' rest []
            | EmptyString => None
            end
          else if Ascii.eqb c "[" then
            match skip_ws rest with
            | String c' rest' =>
                if Ascii.eqb c' "]" then Some (VList [], rest')
                else parse_elements fuel' rest []
            | EmptyString => None
            end
          else if Ascii.eqb c dquote then
            match scan_string rest with
            | Some (body, after) => Some (VStr body, after)
            | None => None
            end
          else scan_scalar (String c rest)
      end
  end
with parse_elements (fuel : nat) (s : string) (acc : list pyval)
  : option (pyval * string) :=
  match fuel with
  | O => None
  | S fuel' =>
      match parse_value fuel' s with
      | None => None
      | Some (v, after) =>
          match skip_ws after with
          | String c rest =>
              if Ascii.eqb c "," then parse_elements fuel' rest (acc ++ [v])
              else if Ascii.eqb c "]" then Some (VList (acc ++ [v]), rest)
              else None
          | EmptyString => None
          end
      end
  end
with parse_members (fuel : nat) (s : string) (acc : list (string * pyval))
  : option (pyval * string) :=
  match fuel with
  | O => None
  | S fuel' =>
      match skip_ws s with
      | EmptyString => None
      | String q rest =>
          if negb (Ascii.eqb q dquote) then None
          else
            match scan_string rest with
            | None => None
            | Some (key, after_key) =>
                match skip_ws after_key with
                | EmptyString => None
                | String colon after_colon =>
                    if negb (Ascii.eqb colon ":") then None
                    else
                      match parse_value fuel' after_colon with
                      | None => None
                      | Some (v, after) =>
                          match skip_ws after with
                          | String c rest' =>
                              if Ascii.eqb c "," then
                                parse_members fuel' rest' (dict_set acc key v)
                              else if Ascii.eqb c "}" then
                                Some (VDict (dict_set acc key v), rest')
                              else None
                          | EmptyString => None
                          end
                      end
                end
            end
      end
  end.

Definition json_loads (s : string) : option pyval :=
  match parse_value (2 * String.length s + 2) s with
  | Some (v, after) =>
      match skip_ws after with
      | EmptyString => Some v
      | String _ _ => None
      end
  | None => None
  end.

(** *** repr *)

Fixpoint contains (c : ascii) (s : string) : bool :=
  match s with
  | EmptyString => false
  | String c' rest => Ascii.eqb c' c || contains c rest
  end.

Definition hex_digit (n : Z) : ascii :=
  ascii_of_N (Z.to_N (if n <? 10 then 48 + n else 87 + n)).

(** Code points [repr] does not print as they are. *)
Definition is_unprintable (c : ascii) : bool :=
  let n := code c in
  (n <? 32) || ((127 <=? n) && (n <=? 160)) || (n =? 173).

Fixpoint escape (quote : ascii) (s : string) : string :=
  match s with
  | EmptyString => EmptyString
  | String c rest =>
      (if Ascii.eqb c quote || Ascii.eqb c backslash
       then String backslash (String c EmptyString)
       else if Ascii.eqb c "010" then String backslash "n"
       else if Ascii.eqb c "013" then String backslash "r"
       else if Ascii.eqb c "009" then String backslash "t"
       else if is_unprintable c
       then String backslash
              (String "x" (String (hex_digit (code c / 16))
                             (String (hex_digit (code c mod 16)) EmptyString)))
       else String c EmptyString) ++ escape quote rest
  end.

Definition repr_str (s : string) : string :=
  let quote :=
    if contains "'" s && negb (contains dquote s) then dquote else "'"%char in
  String quote (escape quote s ++ String quote EmptyString).

Fixpoint repr (v : pyval) : string :=
  match v with
  | VNone => "None"
  | VBool true => "True"
  | VBool false => "False"
  | VInt z => str_of_int z
  | VStr s => repr_str s
  | VList l => "[" ++ concat ", " (map repr l) ++ "]"
  | VDict d =>
      "{" ++ concat ", "
               (map (fun kv => repr_str (fst kv) ++ ": " ++ repr (snd kv)) d)
          ++ "}"
  end.

#[export] Instance builtins : Builtins :=
  Build_Builtins int_of_str json_loads repr.

(** A str between double quotes, for writing JSON text. *)
Definition quoted (s : string) : string :=
  String dquote (s ++ String dquote EmptyString).

End Reference.

(** ** Vocabulary of the statements *)

(** The value of the key ["id"] of a record of the table. *)
Definition id_of (r : pyval) : result pyval := subscript r "id".

(** The record answers [customer["id"] == n]. *)
Definition has_id (n : Z) (r : pyval) : bool :=
  match id_of r with
  | Ok k => eq_int k n
  | Raise _ => false
  end.

(** The record is a dict with the key [k]. *)
Definition has_key (k : string) (r : pyval) : bool :=
  match subscript r k with
  | Ok _ => true
  | Raise _ => false
  end.

Definition is_int (v : pyval) : bool :=
  match v with VInt _ => true | _ => false end.

(** The key [k] is there and holds an int. *)
Definition has_int_key (k : string) (r : pyval) : bool :=
  match subscript r k with
  | Ok v => is_int v
  | Raise _ => false
  end.

(** The fields every customer carries. *)
Definition has_customer_fields (r : pyval) : bool :=
  has_int_key "id" r && has_key "first_name" r && has_key "last_name" r
  && has_key "age" r && has_key "postal_code" r.

Definition has_order_fields (r : pyval) : bool :=
  has_key "order_id" r && has_key "description" r.


(** [x[1:-1]] decodes to a JSON object with both keys of a change record. *)
Definition change_document {B : Builtins} (x : pyval) (a b : pyval) : Prop :=
  exists s d,
    x = VStr s /\ json_loads (str_slice s 1 (-1)) = Some (VDict d)
    /\ dict_get d "instance" = Some a /\ dict_get d "changeType" = Some b.

(** What [record_change] decodes: [json.loads(x[1:-1])]. *)
Definition decoded {B : Builtins} (x : pyval) : result pyval :=
  match slice x 1 (-1) with
  | Ok inner => py_json_loads inner
  | Raise e => Raise e
  end.

(** The string [record_change] builds from the two values. *)
Definition change_message {B : Builtins} (a b : pyval) : string :=
  "instance " ++ py_str a ++ ". ACTION: " ++ py_str b ++ " recorded in CMDB".

(** A computation that leaves the global [customer_table] as it found it,
    whether it returns or raises. *)
Definition preserves_table {A} (m : M state A) : Prop :=
  forall st, g_customer_table (snd (m st)) = g_customer_table st.

(** A computation that only adds lines to standard output. *)
Definition extends_stdout {A} (m : M state A) : Prop :=
  forall st, exists lines, stdout (snd (m st)) = (stdout st ++ lines)%list.

(** A str without the character [sep]. *)
Definition free_of (sep : ascii) (s : string) : Prop := count_char sep s = O.

(** A run of tool calls, as an agent makes them one after the other: each
    call is a tool function with its argument, and starts in the state the
    previous one left, whether that one returned or raised. *)
Fixpoint run_calls (calls : list ((pyval -> M state pyval) * pyval))
    (st : state) : state :=
  match calls with
  | [] => st
  | (f, x) :: rest => run_calls rest (snd (f x st))
  end.

(** The lines [customer_lookup(id)] writes when its outcome is [r]. *)
Definition lookup_lines {B : Builtins} (id : pyval) (r : result pyval)
  : list string :=
  ("search by customer " ++ py_str id)
  :: match r with
     | Ok (VDict d) => ["found customer " ++ py_str id ++ " " ++ py_str (VDict d)]
     | _ => []
     end.

(** The tool is one made by the notebook and called [name]. *)
Definition named (name : string) (t : Notebook.tool) : bool :=
  match t with
  | Notebook.Tool n _ _ => String.eqb n name
  | Notebook.Loaded _ => false
  end.

(** The name and the description the notebook gave a tool; the tools of
    [load_tools] carry the framework's. *)
Definition tool_name (t : Notebook.tool) : option string :=
  match t with
  | Notebook.Tool n _ _ => Some n
  | Notebook.Loaded _ => None
  end.

Definition tool_description (t : Notebook.tool) : option string :=
  match t with
  | Notebook.Tool _ _ d => Some d
  | Notebook.Loaded _ => None
  end.

(** ** Strings: split and slices *)

Lemma split_length (sep : ascii) (s : string) :
  List.length (split sep s) = S (count_char sep s).
Proof.
  induction s as [|c rest IH]; simpl; [reflexivity|].
  destruct (Ascii.eqb c sep); simpl.
  - now rewrite IH.
  - destruct (split sep rest) as [|seg segs]; simpl in *; [discriminate|exact IH].
Qed.

Lemma substring_all (s : string) : substring 0 (String.length s) s = s.
Proof. induction s as [|c rest IH]; simpl; [reflexivity|now rewrite IH]. Qed.

Lemma substring_drop_last (c : ascii) (s : string) :
  substring 0 (String.length s) (String c s) = drop_last (String c s).
Proof.
  revert c; induction s as [|d rest IH]; intros c; [reflexivity|].
  change (substring 0 (String.length (String d rest)) (String c (String d rest)))
    with (String c (substring 0 (String.length rest) (String d rest))).
  now rewrite IH.
Qed.

(** [s[1:-1]] is [s] without its first and its last character. *)
Lemma str_slice_inner (s : string) :
  str_slice s 1 (-1) = drop_last (drop_first s).
Proof.
  destruct s as [|c [|d rest]]; try reflexivity.
  unfold str_slice, slice_index.
  change (String.length (String c (String d rest)))
    with (S (S (String.length rest))).
  cbv beta zeta.
  replace (1 <? 0) with false by reflexivity.
  replace (-1 <? 0) with true by reflexivity.
  rewrite Z.min_r, Z.max_r by lia.
  replace (Z.to_nat (Z.of_nat (S (S (String.length rest))) + -1 - 1))
    with (String.length rest) by lia.
  change (Z.to_nat 1) with 1%nat.
  change (substring 1 (String.length rest) (String c (String d rest)))
    with (substring 0 (String.length rest) (String d rest)).
  apply substring_drop_last.
Qed.

(** ** The EC2 tools *)

(** C9: for every str [s], EC2Patch returns "[n] instances patched" and
    EC2Stop returns "[n] instances stopped", where [n] is the number of
    segments [s.split(',')] yields, one more than the number of commas of
    [s]; so [n] is at least 1, and the empty string gives
    "1 instances patched" and "1 instances stopped". *)
Theorem EC2Patch_EC2Stop_count (s : string) :
  let n := List.length (split "," s) in
  EC2Patch (VStr s)
    = Ok (VStr (str_of_int (Z.of_nat n) ++ " instances patched"))
  /\ EC2Stop (VStr s)
    = Ok (VStr (str_of_int (Z.of_nat n) ++ " instances stopped"))
  /\ n = S (count_char "," s)
  /\ (1 <= n)%nat
  /\ EC2Patch (VStr "") = Ok (VStr "1 instances patched")
  /\ EC2Stop (VStr "") = Ok (VStr "1 instances stopped").
Proof.
  intros n. subst n. rewrite split_length.
  repeat split; try reflexivity.
  - unfold EC2Patch, split_comma. now rewrite split_length.
  - unfold EC2Stop, split_comma. now rewrite split_length.
  - lia.
Qed.

(** ** The customer table *)

Lemma customer_table_ids :
  map id_of customer_table
  = map (fun n => Ok (VInt n)) [1; 2; 3; 4; 5; 6; 7; 8; 9; 10].
Proof. reflexivity. Qed.

Lemma customer_ids_NoDup : NoDup (map id_of customer_table).
Proof.
  rewrite customer_table_ids.
  repeat (constructor; [simpl; intuition discriminate |]). constructor.
Qed.

(** C3: two records at different positions of [customer_table] have
    different ids. *)
Theorem customer_ids_unique (i j : nat) (r1 r2 : pyval) :
  nth_error customer_table i = Some r1 ->
  nth_error customer_table j = Some r2 ->
  i <> j ->
  id_of r1 <> id_of r2.
Proof.
  intros H1 H2 Hij Heq. apply Hij.
  assert (Hi : (i < List.length (map id_of customer_table))%nat).
  { rewrite length_map. apply nth_error_Some. congruence. }
  apply (proj1 (NoDup_nth_error _) customer_ids_NoDup i j Hi).
  rewrite !nth_error_map, H1, H2. simpl. now f_equal.
Qed.

Lemma customer_ids_unique_witness :
  id_of (customer 1 "John" "Doe" 35 "90210") <> id_of michelle.
Proof.
  apply (customer_ids_unique 0 7); [reflexivity | reflexivity | lia].
Defined.

(** C8: every record of [customer_table] has an int [id] and the fields
    [first_name], [last_name], [age] and [postal_code]; [orders] is on
    exactly one record, the one with id 8, where it is a list of two
    records that each have [order_id] and [description]. *)
Theorem customer_table_fields :
  Forall (fun r => has_customer_fields r = true) customer_table
  /\ filter (has_key "orders") customer_table = [michelle]
  /\ id_of michelle = Ok (VInt 8)
  /\ exists o1 o2,
       subscript michelle "orders" = Ok (VList [o1; o2])
       /\ has_order_fields o1 = true /\ has_order_fields o2 = true.
Proof.
  split; [| split; [| split]].
  - repeat constructor.
  - reflexivity.
  - reflexivity.
  - eexists _, _. repeat split.
Qed.

(** ** Effects of the tools *)

Lemma bind_raises {S A C} (m : M S A) (k : A -> M S C) (st : S) :
  raises (fst (m st)) -> raises (fst (bind m k st)).
Proof.
  intros [e He]. unfold bind. destruct (m st) as [[a|e'] st']; simpl in *.
  - discriminate.
  - now exists e'.
Qed.

Lemma preserves_ret {A} (a : A) : preserves_table (ret a).
Proof. intros st. reflexivity. Qed.

Lemma preserves_lift {A} (r : result A) : preserves_table (lift r).
Proof. intros st. reflexivity. Qed.

Lemma preserves_print (line : string) : preserves_table (print line).
Proof. intros st. reflexivity. Qed.

Lemma preserves_read : preserves_table read_customer_table.
Proof. intros st. reflexivity. Qed.

Lemma preserves_bind {A C} (m : M state A) (k : A -> M state C) :
  preserves_table m -> (forall a, preserves_table (k a)) ->
  preserves_table (bind m k).
Proof.
  intros Hm Hk st. unfold bind. specialize (Hm st).
  destruct (m st) as [[a|e] st']; simpl in *.
  - now rewrite Hk.
  - exact Hm.
Qed.

Lemma extends_ret {A} (a : A) : extends_stdout (ret a).
Proof. intros st. exists []. simpl. now rewrite app_nil_r. Qed.

Lemma extends_lift {A} (r : result A) : extends_stdout (lift r).
Proof. intros st. exists []. simpl. now rewrite app_nil_r. Qed.

Lemma extends_print (line : string) : extends_stdout (print line).
Proof. intros st. now exists [line]. Qed.

Lemma extends_read : extends_stdout read_customer_table.
Proof. intros st. exists []. simpl. now rewrite app_nil_r. Qed.

Lemma extends_bind {A C} (m : M state A) (k : A -> M state C) :
  extends_stdout m -> (forall a, extends_stdout (k a)) ->
  extends_stdout (bind m k).
Proof.
  intros Hm Hk st. unfold bind. destruct (Hm st) as [l1 H1].
  destruct (m st) as [[a|e] st']; simpl in *.
  - destruct (Hk a st') as [l2 H2]. exists (l1 ++ l2)%list.
    now rewrite H2, H1, app_assoc.
  - now exists l1.
Qed.

Create HintDb effects.

#[local] Hint Resolve preserves_ret preserves_lift preserves_print
  preserves_read extends_ret extends_lift extends_print extends_read
  : effects.

Ltac effects :=
  repeat first
    [ apply preserves_bind; [| intros ? ]
    | apply extends_bind; [| intros ? ]
    | solve [ auto with effects ] ].

Section ToolEffects.
Context {B : Builtins}.

Lemma customer_loop_preserves (customers : list pyval) (id : pyval) :
  preserves_table (customer_loop customers id).
Proof.
  induction customers as [|c rest IH]; simpl; effects.
  destruct (eq_int _ _); [effects | exact IH].
Qed.

Lemma customer_loop_extends (customers : list pyval) (id : pyval) :
  extends_stdout (customer_loop customers id).
Proof.
  induction customers as [|c rest IH]; simpl; effects.
  destruct (eq_int _ _); [effects | exact IH].
Qed.

Lemma customer_lookup_preserves (id : pyval) :
  preserves_table (customer_lookup id).
Proof. unfold customer_lookup. effects. apply customer_loop_preserves. Qed.

Lemma customer_lookup_extends (id : pyval) :
  extends_stdout (customer_lookup id).
Proof. unfold customer_lookup. effects. apply customer_loop_extends. Qed.

Lemma record_change_preserves (x : pyval) : preserves_table (record_change x).
Proof. unfold record_change. effects. Qed.

(** C5: [customer_lookup] leaves the list bound to [customer_table] and
    every record in it as they were, for every argument, whether it
    returns or raises; all it does to the state is print.  The same holds
    of each of the five custom tools. *)
Theorem customer_table_unchanged (id : pyval) (st : state) :
  g_customer_table (snd (customer_lookup id st)) = g_customer_table st
  /\ (exists lines,
        stdout (snd (customer_lookup id st)) = (stdout st ++ lines)%list)
  /\ Forall (fun t => forall x, preserves_table (snd t x)) custom_tools.
Proof.
  split; [apply customer_lookup_preserves |].
  split; [apply customer_lookup_extends |].
  unfold custom_tools.
  repeat (apply Forall_cons; [simpl; intros x |]); [.. | apply Forall_nil].
  - apply preserves_lift.
  - apply preserves_lift.
  - apply preserves_lift.
  - apply record_change_preserves.
  - apply customer_lookup_preserves.
Qed.

End ToolEffects.

(** ** What customer_lookup returns *)

Lemma has_id_int (r : pyval) (k n : Z) :
  id_of r = Ok (VInt k) -> has_id n r = (k =? n).
Proof. intros H. unfold has_id. now rewrite H. Qed.

Lemma customer_table_int_ids :
  Forall (fun r => exists k, id_of r = Ok (VInt k)) customer_table.
Proof. repeat (apply Forall_cons; [eexists; reflexivity |]). apply Forall_nil. Qed.

(** A record of the table whose id compares equal to [n] has the id [n]. *)
Lemma has_id_customer (r : pyval) (n : Z) :
  In r customer_table -> has_id n r = true -> id_of r = Ok (VInt n).
Proof.
  intros Hin Hid.
  destruct (proj1 (Forall_forall _ _) customer_table_int_ids r Hin) as [k Hk].
  rewrite (has_id_int r k n Hk) in Hid. apply Z.eqb_eq in Hid. now subst k.
Qed.

(** The record of the table with a given id is the only one. *)
Lemma customer_id_determines (r r' : pyval) :
  In r customer_table -> In r' customer_table -> id_of r = id_of r' -> r = r'.
Proof.
  intros Hr Hr' Heq.
  destruct (In_nth_error _ _ Hr) as [i Hi].
  destruct (In_nth_error _ _ Hr') as [j Hj].
  destruct (Nat.eq_dec i j) as [->|Hne]; [congruence |].
  assert (Hlt : (i < List.length (map id_of customer_table))%nat).
  { rewrite length_map. apply nth_error_Some. congruence. }
  exfalso. apply Hne.
  apply (proj1 (NoDup_nth_error _) customer_ids_NoDup i j Hlt).
  rewrite !nth_error_map, Hi, Hj. simpl. now f_equal.
Qed.

Section Lookup.
Context {B : Builtins}.

(** The loop is a search for the first record whose id equals [int(id)],
    on a table whose records all have an id. *)
Lemma customer_loop_find (customers : list pyval) (id : pyval) (n : Z)
    (st : state) :
  Forall (fun r => exists k, id_of r = Ok k) customers ->
  py_int id = Ok n ->
  fst (customer_loop customers id st)
  = Ok (match find (has_id n) customers with
        | Some r => r
        | None => VNone
        end).
Proof.
  intros Hids Hint. revert st.
  induction Hids as [|c rest [k Hk] _ IH]; intros st; [reflexivity |].
  simpl. unfold bind, lift, has_id. unfold id_of in Hk. unfold id_of.
  rewrite Hk, Hint. simpl.
  destruct (eq_int k n); [reflexivity | apply IH].
Qed.

Lemma customer_lookup_find (id : pyval) (n : Z) (st : state) :
  g_customer_table st = customer_table ->
  py_int id = Ok n ->
  fst (customer_lookup id st)
  = Ok (match find (has_id n) customer_table with
        | Some r => r
        | None => VNone
        end).
Proof.
  intros Htable Hint.
  change (fst (customer_lookup id st))
    with (fst (customer_loop (g_customer_table st) id
                 (mkState (g_customer_table st)
                    (stdout st ++ ["search by customer " ++ py_str id])))).
  rewrite Htable. apply customer_loop_find; [| exact Hint].
  eapply Forall_impl; [| exact customer_table_int_ids].
  intros r [k Hk]. now exists (VInt k).
Qed.

(** C1: when [int(id)] is the id of a record of [customer_table],
    [customer_lookup(id)] returns that record, the only one with this id;
    for 8, or a str that [int] reads as 8, it is the record of Michelle
    Chen, aged 22, postal code "33215", with a list of two orders. *)
Theorem customer_lookup_returns_record (id : pyval) (n : Z) (st : state) :
  g_customer_table st = customer_table ->
  py_int id = Ok n ->
  In (Ok (VInt n)) (map id_of customer_table) ->
  exists r,
    fst (customer_lookup id st) = Ok r
    /\ In r customer_table
    /\ id_of r = Ok (VInt n)
    /\ (forall r', In r' customer_table -> id_of r' = Ok (VInt n) -> r' = r)
    /\ (n = 8 ->
        r = michelle
        /\ subscript r "first_name" = Ok (VStr "Michelle")
        /\ subscript r "last_name" = Ok (VStr "Chen")
        /\ subscript r "age" = Ok (VInt 22)
        /\ subscript r "postal_code" = Ok (VStr "33215")
        /\ exists o1 o2, subscript r "orders" = Ok (VList [o1; o2])).
Proof.
  intros Htable Hint Hpresent.
  rewrite (customer_lookup_find id n st Htable Hint).
  apply in_map_iff in Hpresent. destruct Hpresent as [r0 [Hid0 Hin0]].
  destruct (find (has_id n) customer_table) as [r|] eqn:Hfind.
  - destruct (find_some _ _ Hfind) as [Hin Hhas].
    pose proof (has_id_customer r n Hin Hhas) as Hid.
    exists r. repeat split; try assumption.
    + intros r' Hin' Hid'. apply customer_id_determines; congruence.
    + rewrite (customer_id_determines r michelle Hin); [reflexivity | |].
      * simpl. auto 10.
      * rewrite Hid. now subst n.
    + subst n. now rewrite (customer_id_determines r michelle Hin);
        [| simpl; auto 10 | rewrite Hid].
    + subst n. now rewrite (customer_id_determines r michelle Hin);
        [| simpl; auto 10 | rewrite Hid].
    + subst n. now rewrite (customer_id_determines r michelle Hin);
        [| simpl; auto 10 | rewrite Hid].
    + subst n. now rewrite (customer_id_determines r michelle Hin);
        [| simpl; auto 10 | rewrite Hid].
    + subst n. rewrite (customer_id_determines r michelle Hin);
        [| simpl; auto 10 | now rewrite Hid].
      eexists _, _. reflexivity.
  - exfalso. pose proof (find_none _ _ Hfind r0 Hin0) as Hno.
    rewrite (has_id_int r0 n n Hid0), Z.eqb_refl in Hno. discriminate.
Qed.

(** C10: when [int(id)] is the id of no record, for one when it is outside
    1..10, [customer_lookup(id)] returns [None]; and whatever [id] is, a
    str included, the call returns what it returns for the int
    [int(id)]. *)
Theorem customer_lookup_no_match (id : pyval) (n : Z) (st : state) :
  g_customer_table st = customer_table ->
  py_int id = Ok n ->
  (~ In (Ok (VInt n)) (map id_of customer_table) ->
   fst (customer_lookup id st) = Ok VNone)
  /\ (~ (1 <= n <= 10) -> fst (customer_lookup id st) = Ok VNone)
  /\ fst (customer_lookup id st) = fst (customer_lookup (VInt n) st).
Proof.
  intros Htable Hint.
  assert (Habsent : ~ In (Ok (VInt n)) (map id_of customer_table) ->
                    fst (customer_lookup id st) = Ok VNone).
  { intros Hno. rewrite (customer_lookup_find id n st Htable Hint).
    destruct (find (has_id n) customer_table) as [r|] eqn:Hfind; [| reflexivity].
    destruct (find_some _ _ Hfind) as [Hin Hhas]. exfalso. apply Hno.
    apply in_map_iff. exists r. split; [| exact Hin].
    now apply has_id_customer. }
  split; [exact Habsent |]. split.
  - intros Hrange. apply Habsent. rewrite customer_table_ids.
    intros Hin. apply Hrange. simpl in Hin.
    repeat (destruct Hin as [Hin | Hin]; [inversion Hin; lia |]).
    destruct Hin.
  - rewrite (customer_lookup_find id n st Htable Hint).
    now rewrite (customer_lookup_find (VInt n) n st Htable).
Qed.

End Lookup.

Lemma customer_lookup_returns_record_witness :
  fst (customer_lookup (B := Reference.builtins) (VStr " 8") initial_state)
  = Ok michelle.
Proof.
  destruct (customer_lookup_returns_record (B := Reference.builtins)
              (VStr " 8") 8 initial_state)
    as [r [Hret [_ [_ [_ H8]]]]].
  - reflexivity.
  - reflexivity.
  - simpl. auto 10.
  - rewrite Hret. f_equal. now apply H8.
Defined.

Lemma customer_lookup_no_match_witness :
  fst (customer_lookup (B := Reference.builtins) (VStr "11") initial_state)
  = Ok VNone.
Proof.
  destruct (customer_lookup_no_match (B := Reference.builtins)
              (VStr "11") 11 initial_state) as [_ [Hrange _]].
  - reflexivity.
  - reflexivity.
  - apply Hrange. lia.
Defined.

(** ** What record_change returns *)

Section ChangeRecord.
Context {B : Builtins}.

Lemma record_change_eval (x : pyval) (st : state) :
  fst (record_change x st)
  = match decoded x with
    | Raise e => Raise e
    | Ok j =>
        match subscript j "instance" with
        | Raise e => Raise e
        | Ok a =>
            match subscript j "changeType" with
            | Raise e => Raise e
            | Ok b => Ok (VStr (change_message a b))
            end
        end
    end.
Proof.
  unfold record_change, decoded, bind, lift, print, ret.
  destruct (slice x 1 (-1)) as [inner|e]; simpl; [| reflexivity].
  destruct (py_json_loads inner) as [j|e]; simpl; [| reflexivity].
  destruct (subscript j "instance") as [a|e]; simpl; [| reflexivity].
  destruct (subscript j "changeType") as [b|e]; reflexivity.
Qed.

Lemma record_change_stdout (x : pyval) (st : state) :
  stdout (snd (record_change x st))
  = (stdout st ++ [("*" ++ py_str x ++ "*")%string])%list.
Proof.
  unfold record_change, bind, lift, print, ret.
  destruct (slice x 1 (-1)) as [inner|e]; simpl; [| reflexivity].
  destruct (py_json_loads inner) as [j|e]; simpl; [| reflexivity].
  destruct (subscript j "instance") as [a|e]; simpl; [| reflexivity].
  destruct (subscript j "changeType") as [b|e]; reflexivity.
Qed.

Lemma change_document_decoded (x a b : pyval) :
  change_document x a b ->
  exists d, decoded x = Ok (VDict d)
            /\ dict_get d "instance" = Some a
            /\ dict_get d "changeType" = Some b.
Proof.
  intros [s [d [-> [Hjson [Ha Hb]]]]]. exists d.
  unfold decoded. simpl. now rewrite Hjson.
Qed.

(** C6: when [x[1:-1]], which is [x] without its first and last
    character, decodes to a JSON object with the keys 'instance' and
    'changeType', [record_change(x)] returns
    "instance {instance}. ACTION: {changeType} recorded in CMDB" with the
    two values of the object put in, each as [str] formats it: a str
    value as it is. *)
Theorem record_change_returns (x a b : pyval) (st : state) :
  change_document x a b ->
  fst (record_change x st)
  = Ok (VStr ("instance " ++ py_str a ++ ". ACTION: " ++ py_str b
              ++ " recorded in CMDB"))
  /\ (forall s, x = VStr s ->
        decoded x = py_json_loads (VStr (drop_last (drop_first s))))
  /\ (forall sa sb, a = VStr sa -> b = VStr sb ->
        fst (record_change x st)
        = Ok (VStr ("instance " ++ sa ++ ". ACTION: " ++ sb
                    ++ " recorded in CMDB"))).
Proof.
  intros Hdoc.
  destruct (change_document_decoded x a b Hdoc) as [d [Hd [Ha Hb]]].
  assert (Hret : fst (record_change x st) = Ok (VStr (change_message a b))).
  { rewrite record_change_eval, Hd. simpl. now rewrite Ha, Hb. }
  split; [exact Hret |]. split.
  - intros s ->. unfold decoded. simpl. now rewrite str_slice_inner.
  - intros sa sb -> ->. exact Hret.
Qed.

Lemma customer_loop_raises (c : pyval) (rest : list pyval) (id : pyval)
    (st : state) :
  raises (py_int id) -> raises (fst (customer_loop (c :: rest) id st)).
Proof.
  intros [e He]. simpl. unfold bind, lift.
  destruct (subscript c "id") as [k|e']; simpl.
  - rewrite He. simpl. now exists e.
  - now exists e'.
Qed.

(** C4: [record_change(x)] raises whenever [x[1:-1]] is not a JSON
    document with the keys 'instance' and 'changeType', and
    [customer_lookup(id)] raises whenever [int(id)] does; the exception is
    the outcome of the call, as nothing handles it. *)
Theorem tool_errors_propagate (x : pyval) (st : state) :
  (~ (exists a b, change_document x a b) -> raises (fst (record_change x st)))
  /\ (g_customer_table st = customer_table ->
      raises (py_int x) -> raises (fst (customer_lookup x st))).
Proof.
  split.
  - intros Hbad. rewrite record_change_eval.
    destruct (decoded x) as [j|e] eqn:Hdec; [| now exists e].
    destruct (subscript j "instance") as [a|e] eqn:Ha; [| now exists e].
    destruct (subscript j "changeType") as [b|e] eqn:Hb; [| now exists e].
    exfalso. apply Hbad. exists a, b.
    destruct j as [| | | |l|d]; try discriminate.
    unfold subscript in Ha, Hb.
    destruct (dict_get d "instance") as [a'|] eqn:Ha'; [| discriminate].
    destruct (dict_get d "changeType") as [b'|] eqn:Hb'; [| discriminate].
    injection Ha as <-. injection Hb as <-.
    unfold decoded in Hdec.
    destruct x as [| | |s|l|d0]; try discriminate.
    exists s, d. simpl in Hdec.
    destruct (json_loads (str_slice s 1 (-1))) as [w|]; [| discriminate].
    injection Hdec as ->. auto.
  - intros Htable Hraise.
    change (fst (customer_lookup x st))
      with (fst (customer_loop (g_customer_table st) x
                   (mkState (g_customer_table st)
                      (stdout st ++ ["search by customer " ++ py_str x])))).
    rewrite Htable. apply customer_loop_raises. exact Hraise.
Qed.

End ChangeRecord.

Lemma record_change_returns_witness :
  fst (record_change (B := Reference.builtins)
         (VStr ("'{" ++ Reference.quoted "instance" ++ ": "
                ++ Reference.quoted "i-00000000000" ++ ", "
                ++ Reference.quoted "changeType" ++ ": "
                ++ Reference.quoted "PATCH" ++ "}'"))
         initial_state)
  = Ok (VStr "instance i-00000000000. ACTION: PATCH recorded in CMDB").
Proof.
  apply (record_change_returns (B := Reference.builtins) _
           (VStr "i-00000000000") (VStr "PATCH") initial_state).
  eexists _, _. repeat split.
Defined.

Lemma tool_errors_propagate_witness :
  raises (fst (record_change (B := Reference.builtins)
                 (VStr "{}") initial_state))
  /\ raises (fst (customer_lookup (B := Reference.builtins)
                    (VStr "eight") initial_state)).
Proof.
  destruct (tool_errors_propagate (B := Reference.builtins)
              (VStr "{}") initial_state) as [Hchange _].
  destruct (tool_errors_propagate (B := Reference.builtins)
              (VStr "eight") initial_state) as [_ Hlookup].
  split.
  - apply Hchange. intros [a [b [s [d [Hx [Hjson _]]]]]].
    injection Hx as <-. discriminate Hjson.
  - apply Hlookup; [reflexivity |]. exists ValueError. reflexivity.
Defined.

(** ** What the tools' results depend on *)

Section Dependence.
Context {B : Builtins}.

Lemma customer_loop_depends (customers : list pyval) (x y : pyval)
    (st st' : state) :
  py_int x = py_int y ->
  fst (customer_loop customers x st) = fst (customer_loop customers y st').
Proof.
  intros Hint. revert st st'.
  induction customers as [|c rest IH]; intros st st'; [reflexivity |].
  simpl. unfold bind, lift.
  destruct (subscript c "id") as [k|e]; simpl; [| reflexivity].
  rewrite Hint. destruct (py_int y) as [n|e]; simpl; [| reflexivity].
  destruct (eq_int k n); [reflexivity | apply IH].
Qed.

End Dependence.

(** ** The cells *)

(** The calls of a run of the notebook: five agents are constructed, six
    invocations made, and [print] shows the result of four of them. *)
Lemma notebook_calls :
  Notebook.count Notebook.is_agent_constructor Notebook.trace = 5%nat
  /\ Notebook.count Notebook.is_run Notebook.trace = 6%nat
  /\ Notebook.count Notebook.is_print Notebook.trace = 4%nat.
Proof. repeat split. Qed.



(** ** More on the EC2 tools: split, join and the count *)

Lemma count_char_app (sep : ascii) (s t : string) :
  count_char sep (s ++ t) = (count_char sep s + count_char sep t)%nat.
Proof.
  induction s as [|c rest IH]; simpl; [reflexivity |].
  rewrite IH. lia.
Qed.

Lemma split_free (sep : ascii) (s : string) :
  free_of sep s -> split sep s = [s].
Proof.
  unfold free_of. induction s as [|c rest IH]; simpl; [reflexivity |].
  destruct (Ascii.eqb c sep); simpl; [discriminate |].
  intros H. now rewrite (IH H).
Qed.

Lemma split_app (sep : ascii) (s t : string) :
  free_of sep s ->
  split sep (s ++ String sep t) = s :: split sep t.
Proof.
  unfold free_of. induction s as [|c rest IH]; simpl.
  - now rewrite Ascii.eqb_refl.
  - destruct (Ascii.eqb c sep); simpl; [discriminate |].
    intros H. now rewrite (IH H).
Qed.

Lemma split_segments_free (sep : ascii) (s : string) :
  Forall (free_of sep) (split sep s).
Proof.
  unfold free_of. induction s as [|c rest IH]; simpl.
  - now constructor.
  - destruct (Ascii.eqb c sep) eqn:Hc.
    + now constructor.
    + destruct (split sep rest) as [|seg segs]; simpl.
      * constructor; [simpl; now rewrite Hc | constructor].
      * inversion IH as [|? ? Hseg Hsegs]; subst.
        constructor; [simpl; now rewrite Hc | exact Hsegs].
Qed.

Lemma join_split (sep : ascii) (s : string) :
  concat (String sep EmptyString) (split sep s) = s.
Proof.
  induction s as [|c rest IH]; simpl; [reflexivity |].
  destruct (Ascii.eqb_spec c sep) as [-> | Hne].
  - pose proof (split_length sep rest) as Hlen.
    destruct (split sep rest) as [|seg segs]; [discriminate |].
    simpl in *. now rewrite IH.
  - pose proof (split_length sep rest) as Hlen.
    destruct (split sep rest) as [|seg segs]; [discriminate |].
    destruct segs as [|seg' segs']; simpl in *; now rewrite <- IH.
Qed.

Lemma split_join (sep : ascii) (ids : list string) :
  ids <> [] -> Forall (free_of sep) ids ->
  split sep (concat (String sep EmptyString) ids) = ids.
Proof.
  intros Hne Hfree. induction Hfree as [|i rest Hi Hrest IH]; [congruence |].
  destruct rest as [|j rest'].
  - simpl. now apply split_free.
  - change (concat (String sep EmptyString) (i :: j :: rest'))
      with (i ++ String sep (concat (String sep EmptyString) (j :: rest'))).
    rewrite (split_app sep i _ Hi). f_equal. apply IH. discriminate.
Qed.

(** X1: joining the segments of [s.split(',')] with ',' gives [s] back,
    and no segment holds a comma. *)
Theorem split_comma_round_trip (s : string) :
  concat "," (split "," s) = s /\ Forall (free_of ",") (split "," s).
Proof. split; [apply join_split | apply split_segments_free]. Qed.

(** X2: for a non-empty list of instance ids without commas, EC2Patch and
    EC2Stop called with the ids joined by ',' report the number of ids, and
    [split] recovers the list. *)
Theorem EC2_count_of_joined_ids (ids : list string) :
  ids <> [] ->
  Forall (free_of ",") ids ->
  split "," (concat "," ids) = ids
  /\ EC2Patch (VStr (concat "," ids))
     = Ok (VStr (str_of_int (Z.of_nat (List.length ids)) ++ " instances patched"))
  /\ EC2Stop (VStr (concat "," ids))
     = Ok (VStr (str_of_int (Z.of_nat (List.length ids)) ++ " instances stopped")).
Proof.
  intros Hne Hfree.
  pose proof (split_join "," ids Hne Hfree) as Hsplit.
  unfold EC2Patch, EC2Stop, split_comma. now rewrite Hsplit.
Qed.

Lemma EC2_count_of_joined_ids_witness :
  EC2Patch (VStr "i-00000000000,i-00000000001,i-00000000002")
  = Ok (VStr "3 instances patched").
Proof.
  apply (EC2_count_of_joined_ids
           ["i-00000000000"; "i-00000000001"; "i-00000000002"]).
  - discriminate.
  - repeat constructor.
Defined.

(** X3: the count of two inputs put together with a comma is the sum of
    their counts. *)
Theorem EC2_count_additive (s t : string) :
  List.length (split "," (s ++ "," ++ t))
  = (List.length (split "," s) + List.length (split "," t))%nat
  /\ EC2Patch (VStr (s ++ "," ++ t))
     = Ok (VStr (str_of_int
                   (Z.of_nat (List.length (split "," s))
                    + Z.of_nat (List.length (split "," t)))
                 ++ " instances patched")).
Proof.
  assert (H : List.length (split "," (s ++ "," ++ t))
              = (List.length (split "," s) + List.length (split "," t))%nat).
  { rewrite !split_length, count_char_app. simpl. lia. }
  split; [exact H |].
  unfold EC2Patch, split_comma. rewrite H. now rewrite Nat2Z.inj_add.
Qed.

Lemma str_of_int_inj (a b : Z) : str_of_int a = str_of_int b -> a = b.
Proof.
  unfold str_of_int. intros H.
  assert (Hnonnil : forall z, Z.to_int z <> Decimal.Pos Decimal.Nil
                              /\ Z.to_int z <> Decimal.Neg Decimal.Nil).
  { intros z. destruct z as [|p|p]; simpl; split; try discriminate;
      intros Heq; injection Heq as Heq;
      now apply DecimalPos.Unsigned.to_uint_nonnil in Heq. }
  assert (Hsome : Some (Z.to_int a) = Some (Z.to_int b)).
  { rewrite <- (NilZero.isi (Z.to_int a)) by apply Hnonnil.
    rewrite <- (NilZero.isi (Z.to_int b)) by apply Hnonnil.
    now rewrite H. }
  injection Hsome as Hint.
  rewrite <- (DecimalZ.of_to a), <- (DecimalZ.of_to b). now rewrite Hint.
Qed.

Lemma length_app (s t : string) :
  String.length (s ++ t) = (String.length s + String.length t)%nat.
Proof. induction s as [|c s IH]; simpl; [reflexivity | now rewrite IH]. Qed.

Lemma append_cancel_r (a b suffix : string) :
  a ++ suffix = b ++ suffix -> a = b.
Proof.
  revert b. induction a as [|c a IH]; intros b H.
  - destruct b as [|d b]; [reflexivity |].
    apply (f_equal String.length) in H.
    simpl in H. rewrite length_app in H. lia.
  - destruct b as [|d b].
    + apply (f_equal String.length) in H.
      simpl in H. rewrite length_app in H. lia.
    + simpl in H. injection H as -> H. f_equal. now apply IH.
Qed.

(** X4: EC2Patch returns the same string for two strs exactly when they
    have the same number of commas, so the count can be read back from the
    result; likewise EC2Stop. *)
Theorem EC2_result_determines_count (s t : string) :
  (EC2Patch (VStr s) = EC2Patch (VStr t)
   <-> count_char "," s = count_char "," t)
  /\ (EC2Stop (VStr s) = EC2Stop (VStr t)
      <-> count_char "," s = count_char "," t).
Proof.
  unfold EC2Patch, EC2Stop, split_comma. rewrite !split_length.
  split; split; intros H; try (now rewrite H).
  - injection H as H. apply append_cancel_r, str_of_int_inj in H. lia.
  - injection H as H. apply append_cancel_r, str_of_int_inj in H. lia.
Qed.

(** ** More on record_change *)

Lemma drop_last_snoc (s : string) (c : ascii) :
  drop_last (s ++ String c EmptyString) = s.
Proof.
  induction s as [|d s IH]; [reflexivity |].
  simpl. rewrite IH. now destruct s.
Qed.

Lemma str_slice_wrapped (c1 c2 : ascii) (doc : string) :
  str_slice (String c1 (doc ++ String c2 EmptyString)) 1 (-1) = doc.
Proof. rewrite str_slice_inner. simpl. apply drop_last_snoc. Qed.

Section ChangeRecordMore.
Context {B : Builtins}.

(** X5: whatever [record_change(x)] then does, return or raise, it has
    written the one line "*x*" and nothing else, and the table is as it
    was. *)
Theorem record_change_final_state (x : pyval) (st : state) :
  snd (record_change x st)
  = mkState (g_customer_table st)
            (stdout st ++ [("*" ++ py_str x ++ "*")%string]).
Proof.
  unfold record_change, bind, lift, print, ret.
  destruct (slice x 1 (-1)) as [inner|e]; simpl; [| reflexivity].
  destruct (py_json_loads inner) as [j|e]; simpl; [| reflexivity].
  destruct (subscript j "instance") as [a|e]; simpl; [| reflexivity].
  destruct (subscript j "changeType") as [b|e]; reflexivity.
Qed.

(** X6: which exception [record_change(x)] raises, by cause.  An
    exception of [x[1:-1]] or of [json.loads] is the outcome, unchanged;
    a decoded value that is not an object gives [TypeError]; an object
    without 'instance' or 'changeType' gives [KeyError]; and in no other
    case does [record_change] raise.  For [x] None, a bool, an int or a
    list the exception is [TypeError]. *)
Theorem record_change_exception (x : pyval) (st : state) (e : exn) :
  (fst (record_change x st) = Raise e <->
   decoded x = Raise e
   \/ (e = TypeError
       /\ exists j, decoded x = Ok j /\ forall d, j <> VDict d)
   \/ (e = KeyError
       /\ exists d, decoded x = Ok (VDict d)
                    /\ (dict_get d "instance" = None
                        \/ dict_get d "changeType" = None)))
  /\ (x = VNone \/ (exists b, x = VBool b) \/ (exists z, x = VInt z)
      \/ (exists l, x = VList l) ->
      fst (record_change x st) = Raise TypeError).
Proof.
  rewrite record_change_eval. split; [split |].
  - destruct (decoded x) as [j|e'] eqn:Hdec; [| intros [= <-]; now left].
    destruct j as [| | | | l | d]; simpl;
      try (intros [= <-]; right; left; split;
           [reflexivity | eexists; split; [reflexivity | discriminate]]).
    destruct (dict_get d "instance") as [a|] eqn:Ha.
    + destruct (dict_get d "changeType") as [b|] eqn:Hb; [discriminate |].
      intros [= <-]. right; right. split; [reflexivity |]. exists d. auto.
    + intros [= <-]. right; right. split; [reflexivity |]. exists d. auto.
  - intros [Hdec | [[-> [j [Hj Hnd]]] | [-> [d [Hd Hk]]]]].
    + now rewrite Hdec.
    + rewrite Hj. destruct j as [| | | | l | d]; try reflexivity.
      now destruct (Hnd d).
    + rewrite Hd. simpl. destruct Hk as [Hk | Hk].
      * now rewrite Hk.
      * rewrite Hk. now destruct (dict_get d "instance").
  - intros [-> | [[b ->] | [[z ->] | [l ->]]]]; reflexivity.
Qed.

(** X7: [record_change] drops the first and the last character of a str
    without looking at them: what is decoded is the text between them, so
    the return value is the same whatever the two characters are. *)
Theorem record_change_ignores_delimiters (c1 c2 c1' c2' : ascii)
    (doc : string) (st st' : state) :
  decoded (VStr (String c1 (doc ++ String c2 EmptyString)))
  = py_json_loads (VStr doc)
  /\ fst (record_change (VStr (String c1 (doc ++ String c2 EmptyString))) st)
     = fst (record_change (VStr (String c1' (doc ++ String c2' EmptyString))) st').
Proof.
  assert (H : forall a b,
             decoded (VStr (String a (doc ++ String b EmptyString)))
             = py_json_loads (VStr doc)).
  { intros a b. unfold decoded. simpl. now rewrite str_slice_wrapped. }
  split; [apply H |]. now rewrite !record_change_eval, !H.
Qed.

(** X8: a str of at most two characters has nothing between its first and
    last character: [record_change] decodes the empty string and returns
    or raises as it does for the empty str. *)
Theorem record_change_short_input (s : string) (st : state) :
  (String.length s <= 2)%nat ->
  decoded (VStr s) = py_json_loads (VStr "")
  /\ fst (record_change (VStr s) st) = fst (record_change (VStr "") st).
Proof.
  intros Hlen.
  assert (H : decoded (VStr s) = py_json_loads (VStr "")).
  { destruct s as [|a [|b [|c rest]]]; try reflexivity. simpl in Hlen. lia. }
  split; [exact H |]. rewrite !record_change_eval, H. reflexivity.
Qed.

End ChangeRecordMore.

Lemma record_change_short_input_witness :
  fst (record_change (B := Reference.builtins) (VStr "{}") initial_state)
  = Raise JSONDecodeError.
Proof.
  destruct (record_change_short_input (B := Reference.builtins)
              "{}" initial_state) as [_ H].
  - simpl. lia.
  - rewrite H. reflexivity.
Defined.

(** ** More on customer_lookup: any table *)

Section LookupMore.
Context {B : Builtins}.

Lemma customer_lookup_loop (id : pyval) (st : state) :
  customer_lookup id st
  = customer_loop (g_customer_table st) id
      (mkState (g_customer_table st)
         (stdout st ++ [("search by customer " ++ py_str id)%string])).
Proof. reflexivity. Qed.

Lemma customer_loop_skip (before rest : list pyval) (id : pyval) (n : Z)
    (st : state) :
  py_int id = Ok n ->
  Forall (fun c => exists k, id_of c = Ok k /\ eq_int k n = false) before ->
  customer_loop (before ++ rest) id st = customer_loop rest id st.
Proof.
  intros Hint Hbefore.
  induction Hbefore as [|c before' [k [Hk Hne]] _ IH]; [reflexivity |].
  simpl. unfold bind, lift. unfold id_of in Hk. rewrite Hk, Hint. simpl.
  now rewrite Hne.
Qed.

(** X9: on any table, [customer_lookup] returns the first record whose id
    equals [int(id)] and looks no further: records after it, a second one
    with the same id or one without an id, make no difference. *)
Theorem customer_lookup_first_match (before after : list pyval)
    (r id : pyval) (n : Z) (st : state) :
  g_customer_table st = (before ++ r :: after)%list ->
  py_int id = Ok n ->
  Forall (fun c => exists k, id_of c = Ok k /\ eq_int k n = false) before ->
  (exists k, id_of r = Ok k /\ eq_int k n = true) ->
  fst (customer_lookup id st) = Ok r.
Proof.
  intros Htable Hint Hbefore [k [Hk Heq]].
  rewrite customer_lookup_loop, Htable.
  rewrite (customer_loop_skip before (r :: after) id n _ Hint Hbefore).
  simpl. unfold bind, lift. unfold id_of in Hk. rewrite Hk, Hint. simpl.
  now rewrite Heq.
Qed.

(** X10: on any table, a record without an id that is reached before any
    match ends the lookup with the exception of [customer["id"]]:
    [KeyError] for a dict without the key, [TypeError] for a value that is
    not a dict; a matching record further on is not reached. *)
Theorem customer_lookup_malformed_record (before after : list pyval)
    (c id : pyval) (n : Z) (e : exn) (st : state) :
  g_customer_table st = (before ++ c :: after)%list ->
  py_int id = Ok n ->
  Forall (fun c => exists k, id_of c = Ok k /\ eq_int k n = false) before ->
  id_of c = Raise e ->
  fst (customer_lookup id st) = Raise e
  /\ (e = KeyError \/ e = TypeError).
Proof.
  intros Htable Hint Hbefore Hc. split.
  - rewrite customer_lookup_loop, Htable.
    rewrite (customer_loop_skip before (c :: after) id n _ Hint Hbefore).
    simpl. unfold bind, lift. unfold id_of in Hc. now rewrite Hc.
  - unfold id_of, subscript in Hc.
    destruct c as [| | | | l | d]; try (injection Hc as <-; now right).
    destruct (dict_get d "id"); [discriminate |].
    injection Hc as <-. now left.
Qed.

Lemma customer_loop_result (customers : list pyval) (id v : pyval)
    (st : state) :
  fst (customer_loop customers id st) = Ok v ->
  (v = VNone
   /\ (customers = [] \/ exists n, py_int id = Ok n)
   /\ forall n, py_int id = Ok n ->
                Forall (fun c => exists k, id_of c = Ok k
                                           /\ eq_int k n = false) customers)
  \/ (In v customers
      /\ exists n, py_int id = Ok n /\ has_id n v = true).
Proof.
  revert st. induction customers as [|c rest IH]; intros st; simpl.
  - intros [= <-]. left. repeat split; auto.
  - unfold bind, lift.
    destruct (subscript c "id") as [k|e] eqn:Hk; simpl; [| discriminate].
    destruct (py_int id) as [n|e] eqn:Hint; simpl; [| discriminate].
    destruct (eq_int k n) eqn:Heq; simpl.
    + intros [= <-]. right. split; [now left |].
      exists n. split; [reflexivity |]. unfold has_id, id_of. now rewrite Hk.
    + intros Hrest. destruct (IH _ Hrest) as [[-> [_ Hall]] | [Hin Hmatch]].
      * left. repeat split; [right; now exists n |].
        intros m [= <-]. constructor; [now exists k | now apply Hall].
      * right. split; [now right | exact Hmatch].
Qed.

(** X11: on any table, what [customer_lookup(id)] returns is either a
    record of the table whose id equals [int(id)], or [None], and then
    every record has an id and none equals [int(id)]. *)
Theorem customer_lookup_result (id v : pyval) (st : state) :
  fst (customer_lookup id st) = Ok v ->
  (v = VNone
   /\ forall n, py_int id = Ok n ->
                Forall (fun c => exists k, id_of c = Ok k
                                           /\ eq_int k n = false)
                       (g_customer_table st))
  \/ (In v (g_customer_table st)
      /\ exists n, py_int id = Ok n /\ has_id n v = true).
Proof.
  rewrite customer_lookup_loop. intros H.
  destruct (customer_loop_result _ _ _ _ H) as [[-> [_ Hall]] | Hin].
  - left. now split.
  - now right.
Qed.

Lemma customer_loop_lines (customers : list pyval) (id : pyval) (st : state) :
  snd (customer_loop customers id st)
  = mkState (g_customer_table st)
      (stdout st
       ++ match fst (customer_loop customers id st) with
          | Ok (VDict d) =>
              [("found customer " ++ py_str id ++ " " ++ py_str (VDict d))%string]
          | _ => []
          end).
Proof.
  revert st. induction customers as [|c rest IH]; intros st; simpl.
  - rewrite app_nil_r. now destruct st.
  - unfold bind, lift.
    destruct (subscript c "id") as [k|e] eqn:Hk; simpl;
      [| rewrite app_nil_r; now destruct st].
    destruct (py_int id) as [n|e]; simpl;
      [| rewrite app_nil_r; now destruct st].
    destruct (eq_int k n); simpl; [| apply IH].
    destruct c as [| | | | l | d]; try discriminate. reflexivity.
Qed.

(** X12: the state [customer_lookup(id)] leaves: the table as it was and,
    added to the output, the line "search by customer {id}", followed by
    the line "found customer {id} {customer}" exactly when a record is
    returned; when [None] is returned or an exception raised only the
    first line is written. *)
Theorem customer_lookup_final_state (id : pyval) (st : state) :
  snd (customer_lookup id st)
  = mkState (g_customer_table st)
      (stdout st ++ lookup_lines id (fst (customer_lookup id st))).
Proof.
  rewrite customer_lookup_loop, customer_loop_lines. simpl.
  rewrite <- app_assoc. simpl. unfold lookup_lines.
  now destruct (fst (customer_loop _ _ _)) as [[| | | | |]|].
Qed.

(** X13: on a table that is not empty and whose records all have an id,
    [customer_lookup(id)] raises exactly when [int(id)] does, and raises
    the same exception: for a str, [ValueError] exactly when [int] cannot
    read it; for [None], a list or a dict, [TypeError]; for an int or a
    bool it does not raise. *)
Theorem customer_lookup_exception (id : pyval) (st : state) (e : exn) :
  g_customer_table st <> [] ->
  Forall (fun c => exists k, id_of c = Ok k) (g_customer_table st) ->
  (fst (customer_lookup id st) = Raise e <-> py_int id = Raise e)
  /\ (forall s, id = VStr s ->
        (fst (customer_lookup id st) = Raise e
         <-> int_of_str s = None /\ e = ValueError))
  /\ (id = VNone \/ (exists l, id = VList l) \/ (exists d, id = VDict d) ->
      fst (customer_lookup id st) = Raise TypeError)
  /\ ((exists z, id = VInt z) \/ (exists b, id = VBool b) ->
      exists v, fst (customer_lookup id st) = Ok v).
Proof.
  intros Hne Hids.
  assert (Hiff : forall e', fst (customer_lookup id st) = Raise e'
                            <-> py_int id = Raise e').
  { intros e'. rewrite customer_lookup_loop.
    destruct (py_int id) as [n|e''] eqn:Hint.
    - rewrite (customer_loop_find _ id n _ Hids Hint). split; discriminate.
    - destruct (g_customer_table st) as [|c rest]; [congruence |].
      inversion Hids as [|? ? [k Hk] _]; subst.
      simpl. unfold bind, lift. unfold id_of in Hk. rewrite Hk, Hint. simpl.
      split; intros [= ->]; reflexivity. }
  assert (Hok : forall n, py_int id = Ok n ->
                          exists v, fst (customer_lookup id st) = Ok v).
  { intros n Hint. rewrite customer_lookup_loop.
    rewrite (customer_loop_find _ id n _ Hids Hint). eauto. }
  split; [apply Hiff |]. split; [| split].
  - intros s ->. rewrite Hiff. simpl.
    destruct (int_of_str s) as [z|]; split.
    + discriminate.
    + intros [Hnone _]. discriminate.
    + intros [= <-]. now split.
    + intros [_ ->]. reflexivity.
  - intros [-> | [[l ->] | [d ->]]]; now apply Hiff.
  - intros [[z ->] | [b ->]]; eapply Hok; reflexivity.
Qed.

End LookupMore.

Lemma customer_lookup_first_match_witness :
  fst (customer_lookup (B := Reference.builtins) (VStr "2")
         (mkState [ customer 1 "John" "Doe" 35 "90210";
                    customer 2 "Jane" "Smith" 27 "12345";
                    customer 2 "Bob" "Jones" 42 "55555";
                    VNone ] []))
  = Ok (customer 2 "Jane" "Smith" 27 "12345").
Proof.
  apply (customer_lookup_first_match (B := Reference.builtins)
           [customer 1 "John" "Doe" 35 "90210"]
           [customer 2 "Bob" "Jones" 42 "55555"; VNone]
           (customer 2 "Jane" "Smith" 27 "12345") (VStr "2") 2).
  - reflexivity.
  - reflexivity.
  - repeat constructor. exists (VInt 1). split; reflexivity.
  - exists (VInt 2). split; reflexivity.
Defined.

Lemma customer_lookup_malformed_record_witness :
  fst (customer_lookup (B := Reference.builtins) (VInt 2)
         (mkState [ customer 1 "John" "Doe" 35 "90210";
                    VDict [("first_name", VStr "Jane")];
                    customer 2 "Jane" "Smith" 27 "12345" ] []))
  = Raise KeyError.
Proof.
  apply (customer_lookup_malformed_record (B := Reference.builtins)
           [customer 1 "John" "Doe" 35 "90210"]
           [customer 2 "Jane" "Smith" 27 "12345"]
           (VDict [("first_name", VStr "Jane")]) (VInt 2) 2 KeyError).
  - reflexivity.
  - reflexivity.
  - repeat constructor. exists (VInt 1). split; reflexivity.
  - reflexivity.
Defined.

Lemma customer_lookup_result_witness :
  In michelle (g_customer_table initial_state)
  /\ exists n, py_int (B := Reference.builtins) (VStr "8") = Ok n
               /\ has_id n michelle = true.
Proof.
  destruct (customer_lookup_result (B := Reference.builtins)
              (VStr "8") michelle initial_state eq_refl)
    as [[Hnone _] | Hfound].
  - discriminate Hnone.
  - exact Hfound.
Defined.

Lemma customer_lookup_exception_witness :
  fst (customer_lookup (B := Reference.builtins) (VStr "eight") initial_state)
  = Raise ValueError.
Proof.
  apply (customer_lookup_exception (B := Reference.builtins)
           (VStr "eight") initial_state ValueError).
  - discriminate.
  - repeat (apply Forall_cons; [eexists; reflexivity |]). apply Forall_nil.
  - reflexivity.
Defined.

(** ** Runs of tool calls *)

Section Runs_of_calls.
Context {B : Builtins}.

Lemma record_change_extends (x : pyval) : extends_stdout (record_change x).
Proof. unfold record_change. effects. Qed.

Lemma custom_tool_effects (f : pyval -> M state pyval) :
  In f (map snd custom_tools) ->
  forall x, preserves_table (f x) /\ extends_stdout (f x).
Proof.
  simpl. intros [<- | [<- | [<- | [<- | [<- | []]]]]] x; split.
  - apply preserves_lift.
  - apply extends_lift.
  - apply preserves_lift.
  - apply extends_lift.
  - apply preserves_lift.
  - apply extends_lift.
  - apply record_change_preserves.
  - apply record_change_extends.
  - apply customer_lookup_preserves.
  - apply customer_lookup_extends.
Qed.

(** X14: after any run of calls of the five custom tools, with any
    arguments and whether the calls return or raise, the table is the one
    the run started with, the output has only grown, and
    [customer_lookup] answers every id as it did before the run. *)
Theorem run_calls_invariant
    (calls : list ((pyval -> M state pyval) * pyval)) (st : state) :
  Forall (fun c => In (fst c) (map snd custom_tools)) calls ->
  g_customer_table (run_calls calls st) = g_customer_table st
  /\ (exists lines, stdout (run_calls calls st) = (stdout st ++ lines)%list)
  /\ forall id,
       fst (customer_lookup id (run_calls calls st))
       = fst (customer_lookup id st).
Proof.
  intros Hcalls.
  assert (H : g_customer_table (run_calls calls st) = g_customer_table st
              /\ exists lines,
                   stdout (run_calls calls st) = (stdout st ++ lines)%list).
  { revert st. induction Hcalls as [|[f x] rest Hf _ IH]; intros st; simpl.
    - split; [reflexivity |]. exists []. now rewrite app_nil_r.
    - destruct (custom_tool_effects f Hf x) as [Hp He].
      destruct (IH (snd (f x st))) as [Ht [l2 Hl2]].
      destruct (He st) as [l1 Hl1].
      split; [now rewrite Ht, Hp |].
      exists (l1 ++ l2)%list. now rewrite Hl2, Hl1, app_assoc. }
  destruct H as [Htable Hout]. split; [exact Htable |]. split; [exact Hout |].
  intros id. rewrite !customer_lookup_loop, Htable.
  now apply customer_loop_depends.
Qed.

End Runs_of_calls.

Lemma run_calls_invariant_witness :
  fst (customer_lookup (B := Reference.builtins) (VInt 8)
         (run_calls
            [ (customer_lookup (B := Reference.builtins), VStr "8");
              (record_change (B := Reference.builtins), VStr "not json");
              ((fun x => lift (EC2Patch x)), VStr "i-1,i-2") ]
            initial_state))
  = Ok michelle.
Proof.
  destruct (run_calls_invariant (B := Reference.builtins)
              [ (customer_lookup (B := Reference.builtins), VStr "8");
                (record_change (B := Reference.builtins), VStr "not json");
                ((fun x => lift (EC2Patch x)), VStr "i-1,i-2") ]
              initial_state) as [_ [_ Hsame]].
  - repeat (apply Forall_cons; [simpl; auto 10 |]). apply Forall_nil.
  - rewrite Hsame. reflexivity.
Defined.

(** ** Replacing the function of a tool (cell 15) *)

(** X15: the loop that assigns [tool.func] to the tools called [name]
    keeps the number, order, names and descriptions of the tools; every
    tool called [name] ends with the new function and every other tool is
    as it was; when no tool has the name nothing changes and nothing is
    raised; a second assignment overrides the first. *)
Theorem set_func_properties (name : string) (f g : Notebook.func)
    (tools : list Notebook.tool) :
  List.length (Notebook.set_func name f tools) = List.length tools
  /\ map tool_name (Notebook.set_func name f tools) = map tool_name tools
  /\ map tool_description (Notebook.set_func name f tools)
     = map tool_description tools
  /\ Forall2 (fun t t' =>
                if named name t
                then exists h d, t = Notebook.Tool name h d
                                 /\ t' = Notebook.Tool name f d
                else t' = t)
             tools (Notebook.set_func name f tools)
  /\ (Forall (fun t => named name t = false) tools ->
      Notebook.set_func name f tools = tools)
  /\ Notebook.set_func name f (Notebook.set_func name g tools)
     = Notebook.set_func name f tools.
Proof.
  unfold Notebook.set_func. split; [apply length_map |].
  split; [| split; [| split; [| split]]].
  - rewrite map_map. apply map_ext.
    intros [key | n h d]; [reflexivity |]. now destruct (String.eqb n name).
  - rewrite map_map. apply map_ext.
    intros [key | n h d]; [reflexivity |]. now destruct (String.eqb n name).
  - induction tools as [|t rest IH]; simpl; constructor; [| exact IH].
    destruct t as [key | n h d]; simpl; [reflexivity |].
    destruct (String.eqb_spec n name) as [-> | Hne]; [| reflexivity].
    now exists h, d.
  - intros Hnone. induction Hnone as [|t rest Ht _ IH]; [reflexivity |].
    simpl. rewrite IH. f_equal.
    destruct t as [key | n h d]; [reflexivity |]. simpl in Ht. now rewrite Ht.
  - rewrite map_map. apply map_ext.
    intros [key | n h d]; [reflexivity |].
    destruct (String.eqb n name) eqn:Hn; now rewrite Hn.
Qed.

(** ** Which tools have a fixed output *)

Section FixedOutput.
Context {B : Builtins}.




End FixedOutput.


